(** * The API service fixture: [apps/api-service/src/main.py]

    A shallow embedding of the module and of the small part of its
    collaborators (the import statements, the web framework's application
    constructor, route decorator, router and response serialisation, the
    model base class, the ASGI server's [run]) that the module relies on,
    followed by the properties of the service.

    Python values that are immutable (numbers, strings, classes, functions)
    are plain values; lists, dicts, model instances and the application
    object live in a store and are referred to by location, so that object
    identity, freshness and sharing are visible. *)

From Stdlib Require Import ZArith Ascii.
From stdpp Require Import gmap strings list fin_maps.

Open Scope string_scope.
Open Scope Z_scope.

(** ** Values and objects *)

Abbreviation loc := positive.

(** Field annotations of a model class ([status: str]). *)
Inductive ftype := TStr | TInt.

(** A class deriving from [BaseModel]: its name and its annotated fields, in
    declaration order. *)
Record ModelClass := {
  cls_name : string;
  cls_fields : list (string * ftype)
}.

(** The classes the module names: the framework's application class, and
    model classes ([BaseModel] and what derives from it). A model class is
    read as a class where one is expected. *)
Inductive pyclass := CFastAPI | CModel (c : ModelClass).
Coercion CModel : ModelClass >-> pyclass.

(** The two functions the module defines. *)
Inductive funcname := Fhealth_check | Fget_users.

Inductive val :=
| VNone
| VInt (n : Z)
| VStr (s : string)
| VClass (c : pyclass)
| VFun (f : funcname)
| VModule (m : string)
| VRef (l : loc).

(** A registered route: what [app.get(path, response_model=...)] records
    about the decorated function. *)
Record Route := {
  method : string;
  path : string;
  endpoint : funcname;
  response_model : option ModelClass;
  status_code : Z
}.

(** The functions behind the framework's own pages, under the names
    [FastAPI.setup] gives them: the OpenAPI schema, the two pages of the
    interactive documentation, and the alternative documentation. *)
Inductive docs_page := openapi | swagger_ui_html | swagger_ui_redirect | redoc_html.

(** An entry of an application's route table: a page of the framework, which
    answers GET and HEAD, or a route registered through [app.get]. *)
Inductive entry :=
| Docs (p : string) (pg : docs_page)
| Api (r : Route).

Inductive obj :=
| OList (items : list val)
| ODict (entries : list (string * val))
| OModel (c : ModelClass) (fields : list (string * val))
| OApp (title version : string) (routes : list entry).

#[global] Instance ftype_eq_dec : EqDecision ftype.
Proof. solve_decision. Defined.
#[global] Instance ModelClass_eq_dec : EqDecision ModelClass.
Proof. solve_decision. Defined.
#[global] Instance pyclass_eq_dec : EqDecision pyclass.
Proof. solve_decision. Defined.
#[global] Instance funcname_eq_dec : EqDecision funcname.
Proof. solve_decision. Defined.
#[global] Instance val_eq_dec : EqDecision val.
Proof. solve_decision. Defined.

(** ** The world: store, module namespace, imported modules, servers *)

(** One call of [uvicorn.run(app, host=..., port=...)]. *)
Record Server := {
  srv_app : val;
  host : string;
  port : Z
}.

Record World := {
  heap : gmap loc obj;
  globals : gmap string val;
  modules : gset string;
  servers : list Server
}.

Definition initial : World :=
  {| heap := ∅; globals := ∅; modules := ∅; servers := [] |}.

Definition set_heap (f : gmap loc obj → gmap loc obj) (w : World) : World :=
  {| heap := f (heap w); globals := globals w;
     modules := modules w; servers := servers w |}.

Definition set_globals (f : gmap string val → gmap string val) (w : World) : World :=
  {| heap := heap w; globals := f (globals w);
     modules := modules w; servers := servers w |}.

Definition set_modules (f : gset string → gset string) (w : World) : World :=
  {| heap := heap w; globals := globals w;
     modules := f (modules w); servers := servers w |}.

Definition set_servers (f : list Server → list Server) (w : World) : World :=
  {| heap := heap w; globals := globals w;
     modules := modules w; servers := f (servers w) |}.

(** ** Computations: state and exceptions *)

Inductive exn :=
| NameError (name : string)
| ImportError (name : string)
| AssertionError
| TypeError
| AttributeError
| ValidationError (field : string)
| ResponseValidationError (field : string)
| RecursionError.

(** A computation ends with a value or with an exception; in both cases the
    effects it had on the world so far remain. *)
Inductive outcome (A : Type) :=
| Ok (a : A) (w : World)
| Raise (e : exn) (w : World).
Arguments Ok {A} a w.
Arguments Raise {A} e w.

Definition world_after {A} (o : outcome A) : World :=
  match o with Ok _ w => w | Raise _ w => w end.

Definition M (A : Type) : Type := World → outcome A.

#[global] Instance M_ret : MRet M := λ A a w, Ok a w.
#[global] Instance M_bind : MBind M := λ A B k c w,
  match c w with
  | Ok a w' => k a w'
  | Raise e w' => Raise e w'
  end.

Definition raise {A} (e : exn) : M A := λ w, Raise e w.

(** A new object gets a location that is not in use. *)
Definition alloc (o : obj) : M loc := λ w,
  let l := fresh (dom (heap w)) in Ok l (set_heap <[l := o]> w).

Definition load_global (x : string) : M val := λ w,
  match globals w !! x with
  | Some v => Ok v w
  | None => Raise (NameError x) w
  end.

Definition store_global (x : string) (v : val) : M unit := λ w,
  Ok () (set_globals <[x := v]> w).

(** [class BaseModel]: the model class without fields. *)
Definition BaseModel : ModelClass :=
  {| cls_name := "BaseModel"; cls_fields := [] |}.

(** What the libraries export under the names the module asks for. *)
Definition module_attr (m x : string) : option val :=
  if decide (m = "fastapi" ∧ x = "FastAPI") then Some (VClass CFastAPI)
  else if decide (m = "pydantic" ∧ x = "BaseModel") then Some (VClass BaseModel)
  else None.

(** [import m]: the module is loaded and the name [m] is bound to it in the
    namespace. *)
Definition import_module (m : string) : M unit := λ w,
  Ok () (set_globals <[m := VModule m]> (set_modules (λ ms, {[m]} ∪ ms) w)).

(** [from m import x]: the module is loaded and the name [x] is bound in the
    namespace to what the module exports as [x]. *)
Definition import_from (m x : string) : M unit := λ w,
  let w' := set_modules (λ ms, {[m]} ∪ ms) w in
  match module_attr m x with
  | Some v => Ok () (set_globals <[x := v]> w')
  | None => Raise (ImportError x) w'
  end.

(** Monadic map over a list, left to right. *)
Fixpoint mapM_ {A B} (f : A → M B) (xs : list A) : M (list B) :=
  match xs with
  | [] => mret []
  | x :: xs' => y ← f x; ys ← mapM_ f xs'; mret (y :: ys)
  end.

(** ** The collaborators, as far as the module calls them *)

(** The routes [FastAPI.setup] adds when the documentation URLs are left at
    their defaults, in the order it adds them. *)
Definition docs_routes : list entry :=
  [Docs "/openapi.json" openapi;
   Docs "/docs" swagger_ui_html;
   Docs "/docs/oauth2-redirect" swagger_ui_redirect;
   Docs "/redoc" redoc_html].

(** [FastAPI(title=..., version=...)]: a new application object that records
    its metadata; the constructor refuses an empty title or version, and ends
    with [setup], which puts the framework's own pages in the route table.
    The routes the program registers come after them in the same table. *)
Definition FastAPI (title version : string) : M val :=
  if decide (title = "" ∨ version = "") then raise AssertionError
  else a ← alloc (OApp title version docs_routes); mret (VRef a).

(** [app.get(path, response_model=..., status_code=...)(f)]: appends a GET
    route for [f] to the application's table and gives [f] back unchanged.
    A route registered without [status_code] answers with 200. *)
Definition app_get (app : val) (p : string) (rm : option val)
    (sc : option Z) (f : funcname) : M val := λ w,
  match app with
  | VRef a =>
      match heap w !! a with
      | Some (OApp t v rs) =>
          match rm with
          | None | Some (VClass (CModel _)) =>
              let r := {| method := "GET"; path := p; endpoint := f;
                          response_model :=
                            match rm with
                            | Some (VClass (CModel c)) => Some c
                            | _ => None
                            end;
                          status_code := default 200 sc |} in
              Ok (VFun f) (set_heap <[a := OApp t v (rs ++ [Api r])%list]> w)
          | Some _ => Raise TypeError w
          end
      | _ => Raise AttributeError w
      end
  | _ => Raise AttributeError w
  end.

(** [uvicorn.run(app, host=..., port=...)]: starts a server for [app] bound
    to [host]:[port]. *)
Definition uvicorn_run (app : val) (h : string) (p : Z) : M unit := λ w,
  Ok () (set_servers (λ ss, (ss ++ [{| srv_app := app; host := h; port := p |}])%list) w).

Definition has_type (t : ftype) (v : val) : bool :=
  match t, v with
  | TStr, VStr _ => true
  | TInt, VInt _ => true
  | _, _ => false
  end.

(** Look-up in keyword arguments or in a dict with string keys. *)
Fixpoint assoc {A} (k : string) (kvs : list (string * A)) : option A :=
  match kvs with
  | [] => None
  | (k', v) :: rest => if decide (k = k') then Some v else assoc k rest
  end.

(** Validation of the fields of a model: every annotated field must be given
    and have its annotated type; the result lists the fields in declaration
    order; [inl k] names the first field that fails. *)
Fixpoint validate (decl : list (string * ftype)) (given : list (string * val))
    : string + list (string * val) :=
  match decl with
  | [] => inr []
  | (k, t) :: rest =>
      match assoc k given with
      | Some v =>
          if has_type t v then
            match validate rest given with
            | inr vs => inr ((k, v) :: vs)
            | inl bad => inl bad
            end
          else inl k
      | None => inl k
      end
  end.

(** A keyword argument that is a string, [d] when it is not passed. *)
Definition str_kwarg (k d : string) (kwargs : list (string * val))
    : option string :=
  match assoc k kwargs with
  | None => Some d
  | Some (VStr s) => Some s
  | Some _ => None
  end.

(** Calling a value as a class with keyword arguments:
    [HealthResponse(status=..., version=...)]. A model class validates its
    fields and ignores other keywords. Of the application class only the
    metadata keywords [title] and [version] are modelled, as strings, with
    the constructor's defaults; it keeps other keywords aside. Anything that
    is not a class cannot be called this way. *)
Definition construct (cls : val) (kwargs : list (string * val)) : M val :=
  match cls with
  | VClass (CModel c) =>
      match validate (cls_fields c) kwargs with
      | inr fields => l ← alloc (OModel c fields); mret (VRef l)
      | inl k => raise (ValidationError k)
      end
  | VClass CFastAPI =>
      match str_kwarg "title" "FastAPI" kwargs,
            str_kwarg "version" "0.1.0" kwargs with
      | Some t, Some v => FastAPI t v
      | _, _ => raise TypeError
      end
  | _ => raise TypeError
  end.

(** ** The module [main.py] *)

(** [class HealthResponse(BaseModel): status: str; version: str] *)
Definition HealthResponse : ModelClass :=
  {| cls_name := "HealthResponse";
     cls_fields := [("status", TStr); ("version", TStr)] |}.

(** [def health_check(): return HealthResponse(status="healthy", version="1.0.0")] *)
Definition health_check : M val :=
  cls ← load_global "HealthResponse";
  construct cls [("status", VStr "healthy"); ("version", VStr "1.0.0")].

(** [def get_users(): return [{"id": 1, "name": "John"}, {"id": 2, "name": "Jane"}]] *)
Definition get_users : M val :=
  d1 ← alloc (ODict [("id", VInt 1); ("name", VStr "John")]);
  d2 ← alloc (ODict [("id", VInt 2); ("name", VStr "Jane")]);
  l ← alloc (OList [VRef d1; VRef d2]);
  mret (VRef l).

Definition call (f : funcname) : M val :=
  match f with
  | Fhealth_check => health_check
  | Fget_users => get_users
  end.

(** The module body, run in a new namespace whose [__name__] is [name]:
    ["__main__"] when the file is the program, the module's name when it is
    imported. Of the names the interpreter itself puts in a new namespace
    only [__name__], the one the module reads, is kept. The statements call
    the classes and the package that the imports have just bound. *)
Definition main_module (name : string) : M unit :=
  (λ w, Ok () (set_globals (λ _, {["__name__" := VStr name]}) w));;
  import_from "fastapi" "FastAPI";;
  import_from "pydantic" "BaseModel";;
  app ← FastAPI "API Service" "1.0.0";
  store_global "app" app;;
  store_global "HealthResponse" (VClass HealthResponse);;
  app ← load_global "app";
  cls ← load_global "HealthResponse";
  f ← app_get app "/health" (Some cls) None Fhealth_check;
  store_global "health_check" f;;
  app ← load_global "app";
  f ← app_get app "/api/users" None None Fget_users;
  store_global "get_users" f;;
  n ← load_global "__name__";
  if decide (n = VStr "__main__") then
    import_module "uvicorn";;
    app ← load_global "app";
    uvicorn_run app "0.0.0.0" 8000
  else mret ().

(** ** Serving a request *)

#[local] Set Warnings "-register-all".
Inductive json :=
| JNull
| JInt (n : Z)
| JStr (s : string)
| JArr (items : list json)
| JObj (members : list (string * json)).

(** Depth at which the interpreter gives up on a recursion. *)
Definition recursion_limit : nat := 1000.

(** The framework's conversion of a returned value to JSON data: lists to
    arrays, dicts and model instances to objects, in their own order. *)
Fixpoint jsonable_encoder (fuel : nat) (v : val) : M json :=
  match fuel with
  | O => raise RecursionError
  | S n =>
      match v with
      | VNone => mret JNull
      | VInt z => mret (JInt z)
      | VStr s => mret (JStr s)
      | VClass _ | VFun _ | VModule _ => raise TypeError
      | VRef l => λ w,
          match heap w !! l with
          | Some (OList xs) =>
              (js ← mapM_ (jsonable_encoder n) xs; mret (JArr js)) w
          | Some (ODict kvs) | Some (OModel _ kvs) =>
              (js ← mapM_ (λ kv, j ← jsonable_encoder n kv.2; mret (kv.1, j)) kvs;
               mret (JObj js)) w
          | _ => Raise TypeError w
          end
      end
  end.

(** With a response model the returned object is validated against the
    model and only the model's fields are sent; without, the value is
    converted as it is. *)
Definition serialize_response (rm : option ModelClass) (v : val) : M json :=
  match rm with
  | None => jsonable_encoder recursion_limit v
  | Some c => λ w,
      match v with
      | VRef l =>
          match heap w !! l with
          | Some (ODict kvs) | Some (OModel _ kvs) =>
              match validate (cls_fields c) kvs with
              | inr fields =>
                  (js ← mapM_ (λ kv, j ← jsonable_encoder recursion_limit kv.2;
                                     mret (kv.1, j)) fields;
                   mret (JObj js)) w
              | inl k => Raise (ResponseValidationError k) w
              end
          | _ => Raise (ResponseValidationError "") w
          end
      | _ => Raise (ResponseValidationError "") w
      end
  end.

(** A request as the application receives it: the path is the decoded one.
    The handlers of this module declare no parameters, so nothing beyond
    method and path takes part in serving it. *)
Record Request := {
  req_method : string;
  req_path : string;
  req_query : list (string * string);
  req_headers : list (string * string);
  req_body : string
}.

(** What a response carries: JSON data made from what a handler returned,
    or one of the framework's pages, whose text is the framework's. JSON data
    is read as a body where one is expected. *)
Inductive content :=
| Json (j : json)
| Page (pg : docs_page).
Coercion Json : json >-> content.

Record Response := {
  resp_status : Z;
  resp_body : content
}.

Definition entry_path (e : entry) : string :=
  match e with Docs p _ => p | Api r => path r end.

Definition entry_methods (e : entry) : list string :=
  match e with Docs _ _ => ["GET"; "HEAD"] | Api r => [method r] end.

(** The line feed, as a string. *)
Definition LF : string := String "010"%char "".

(** The router compiles a path without parameters [p] to the regular
    expression [^p$] and matches it at the start of the request path: the
    path itself matches, and so does the path followed by one line feed,
    before which [$] matches too. *)
Definition regex_match (p s : string) : bool :=
  bool_decide (s = p) || bool_decide (s = p ++ LF).

(** A full match: the path matches and the method is one of the route's. *)
Definition matches (req : Request) (e : entry) : bool :=
  regex_match (entry_path e) (req_path req)
  && bool_decide (req_method req ∈ entry_methods e).

(** The application called with a request: the first route that matches in
    full answers; a registered function is called and its result serialised,
    a page of the framework is sent with status 200. [None]: no route matches
    in full and the answer is the framework's own refusal or redirection.
    What the framework keeps to itself while answering, such as the schema
    it computes once for its pages, is no part of the application object as
    it is described here. *)
Definition handle (app : val) (req : Request) : M (option Response) := λ w,
  match app with
  | VRef a =>
      match heap w !! a with
      | Some (OApp _ _ rs) =>
          match List.find (matches req) rs with
          | Some (Api r) =>
              (v ← call (endpoint r);
               j ← serialize_response (response_model r) v;
               mret (Some {| resp_status := status_code r;
                             resp_body := Json j |})) w
          | Some (Docs _ pg) =>
              Ok (Some {| resp_status := 200; resp_body := Page pg |}) w
          | None => Ok None w
          end
      | _ => Raise TypeError w
      end
  | _ => Raise TypeError w
  end.

(** The server serves the module's [app]. *)
Definition serve (req : Request) : M (option Response) :=
  app ← load_global "app"; handle app req.

(** Worlds the service can be in: the module has been run from [w0] under
    [name], and any number of requests have been served since. *)
Inductive reachable (name : string) (w0 : World) : World → Prop :=
| reach_load w :
    main_module name w0 = Ok () w → reachable name w0 w
| reach_serve w req :
    reachable name w0 w → reachable name w0 (world_after (serve req w)).

Definition GET (p : string) : Request :=
  {| req_method := "GET"; req_path := p;
     req_query := []; req_headers := []; req_body := "" |}.

Definition health_route : Route :=
  {| method := "GET"; path := "/health"; endpoint := Fhealth_check;
     response_model := Some HealthResponse; status_code := 200 |}.

Definition users_route : Route :=
  {| method := "GET"; path := "/api/users"; endpoint := Fget_users;
     response_model := None; status_code := 200 |}.

Definition health_fields : list (string * val) :=
  [("status", VStr "healthy"); ("version", VStr "1.0.0")].

Definition health_body : json :=
  JObj [("status", JStr "healthy"); ("version", JStr "1.0.0")].

Definition users_body : json :=
  JArr [JObj [("id", JInt 1); ("name", JStr "John")];
        JObj [("id", JInt 2); ("name", JStr "Jane")]].

Definition user_john : obj := ODict [("id", VInt 1); ("name", VStr "John")].
Definition user_jane : obj := ODict [("id", VInt 2); ("name", VStr "Jane")].

(** The route table of the module's application: the framework's pages,
    then the two routes of the program. *)
Definition app_routes : list entry :=
  (docs_routes ++ [Api health_route; Api users_route])%list.

(** The request path is [p], or [p] followed by one line feed. *)
Definition at_path (p : string) (req : Request) : Prop :=
  req_path req = p ∨ req_path req = p ++ LF.

(** Requests that go to one of the framework's pages, and requests that go
    to one of the program's two functions. *)
Definition asks_docs (req : Request) : Prop :=
  (req_method req = "GET" ∨ req_method req = "HEAD")
  ∧ (at_path "/openapi.json" req ∨ at_path "/docs" req
     ∨ at_path "/docs/oauth2-redirect" req ∨ at_path "/redoc" req).

Definition asks_handler (req : Request) : Prop :=
  req_method req = "GET" ∧ (at_path "/health" req ∨ at_path "/api/users" req).

(** The route a request resolves to in that table. *)
Definition route_for (req : Request) : option entry :=
  List.find (matches req) app_routes.

Definition body_of (f : funcname) : json :=
  match f with Fhealth_check => health_body | Fget_users => users_body end.

Definition expected_response (req : Request) : option Response :=
  match route_for req with
  | Some (Api r) =>
      Some {| resp_status := 200; resp_body := body_of (endpoint r) |}
  | Some (Docs _ pg) => Some {| resp_status := 200; resp_body := Page pg |}
  | None => None
  end.

(** What a computation yields, leaving the world aside. *)
Definition result_of {A} (o : outcome A) : exn + A :=
  match o with Ok a _ => inr a | Raise e _ => inl e end.

(** The values an object holds. *)
Definition held (o : obj) : list val :=
  match o with
  | OList xs => xs
  | ODict kvs | OModel _ kvs => kvs.*2
  | OApp _ _ _ => []
  end.

(** [refers h v l]: [l] is the object [v] denotes, or an object reached from
    it through what the objects of the store [h] hold. *)
Inductive refers (h : gmap loc obj) : val → loc → Prop :=
| refers_self l : refers h (VRef l) l
| refers_held l o v l' :
    h !! l = Some o → v ∈ held o → refers h v l' → refers h (VRef l) l'.

(** Objects that serving a request creates. *)
Inductive produced : obj → Prop :=
| produced_health : produced (OModel HealthResponse health_fields)
| produced_john : produced user_john
| produced_jane : produced user_jane
| produced_users l1 l2 : produced (OList [VRef l1; VRef l2]).

(** [w'] differs from [w] by new objects only, all of them made by
    handlers. *)
Record extends (w w' : World) : Prop := {
  ext_globals : globals w' = globals w;
  ext_modules : modules w' = modules w;
  ext_servers : servers w' = servers w;
  ext_heap : heap w ⊆ heap w';
  ext_new : ∀ l o, heap w !! l = None → heap w' !! l = Some o → produced o
}.

(** The module has been run: its names are bound and the application
    object carries its table. *)
Record loaded (a : loc) (w : World) : Prop := {
  ld_app : globals w !! "app" = Some (VRef a);
  ld_cls : globals w !! "HealthResponse" = Some (VClass HealthResponse);
  ld_routes : heap w !! a = Some (OApp "API Service" "1.0.0" app_routes)
}.

(** The names the module body binds before its last statement. *)
Definition module_defs (name : string) (a : loc) : gmap string val :=
  <["get_users" := VFun Fget_users]>
    (<["health_check" := VFun Fhealth_check]>
       (<["HealthResponse" := VClass HealthResponse]>
          (<["app" := VRef a]>
             (<["BaseModel" := VClass BaseModel]>
                (<["FastAPI" := VClass CFastAPI]>
                   {["__name__" := VStr name]}))))).

(** The namespace the module body leaves behind. *)
Definition module_globals (name : string) (a : loc) : gmap string val :=
  if decide (name = "__main__")
  then <["uvicorn" := VModule "uvicorn"]> (module_defs name a)
  else module_defs name a.

Definition app_object : obj := OApp "API Service" "1.0.0" app_routes.

(** The world the module body leaves behind when run from [w0]. *)
Definition module_world (name : string) (w0 : World) : World :=
  let a := fresh (dom (heap w0)) in
  {| heap := <[a := app_object]> (heap w0);
     globals := module_globals name a;
     modules :=
       (if decide (name = "__main__") then {["uvicorn"]} else ∅)
         ∪ ({["pydantic"]} ∪ ({["fastapi"]} ∪ modules w0));
     servers :=
       if decide (name = "__main__")
       then (servers w0 ++
               [{| srv_app := VRef a; host := "0.0.0.0"; port := 8000 |}])%list
       else servers w0 |}.

(** The module imported as [main] into an empty world, and that world after
    one [GET /health]. *)
Definition w_imported : World := world_after (main_module "main" initial).
Definition w_served : World := world_after (serve (GET "/health") w_imported).

(** A world in which nothing exists but the binding of the class name. *)
Definition w_class_only : World :=
  set_globals (λ _, {["HealthResponse" := VClass HealthResponse]}) initial.

(** ** Running computations *)

Lemma bind_Ok {A B} (k : A → M B) (c : M A) (w w' : World) (a : A) :
  c w = Ok a w' → (c ≫= k) w = k a w'.
Proof. intros H. unfold mbind, M_bind. by rewrite H. Qed.

Lemma bind_Raise {A B} (k : A → M B) (c : M A) (w w' : World) (e : exn) :
  c w = Raise e w' → (c ≫= k) w = Raise e w'.
Proof. intros H. unfold mbind, M_bind. by rewrite H. Qed.

Lemma load_global_Ok (x : string) (v : val) (w : World) :
  globals w !! x = Some v → load_global x w = Ok v w.
Proof. intros H. unfold load_global. by rewrite H. Qed.

Lemma alloc_Ok (o : obj) (w : World) :
  ∃ l, alloc o w = Ok l (set_heap <[l := o]> w) ∧ heap w !! l = None.
Proof.
  exists (fresh (dom (heap w))). split; [reflexivity|].
  apply not_elem_of_dom, is_fresh.
Qed.

Lemma FastAPI_Ok (t v : string) (w : World) :
  t ≠ "" → v ≠ "" →
  FastAPI t v w
  = Ok (VRef (fresh (dom (heap w))))
      (set_heap <[fresh (dom (heap w)) := OApp t v docs_routes]> w).
Proof.
  intros Ht Hv. unfold FastAPI.
  rewrite decide_False by (intros [?|?]; done).
  reflexivity.
Qed.

Lemma app_get_Ok (a : loc) (t v p : string) (rs : list entry)
    (rm : option ModelClass) (f : funcname) (w : World) :
  heap w !! a = Some (OApp t v rs) →
  app_get (VRef a) p ((λ c : ModelClass, VClass c) <$> rm) None f w
  = Ok (VFun f)
      (set_heap <[a := OApp t v (rs ++ [Api {| method := "GET"; path := p;
                                               endpoint := f;
                                               response_model := rm;
                                               status_code := 200 |}])%list]> w).
Proof. intros H. unfold app_get. rewrite H. by destruct rm. Qed.

(** One step of a sequence: run the first computation with [tac]. *)
Tactic Notation "mstep" tactic3(tac) := erewrite bind_Ok; [cbv beta | tac].

(** Projections of updated worlds, without touching the maps inside. *)
Tactic Notation "wsimpl" :=
  cbn [heap globals modules servers
       set_heap set_globals set_modules set_servers world_after].
Tactic Notation "wsimpl" "in" hyp(H) :=
  cbn [heap globals modules servers
       set_heap set_globals set_modules set_servers world_after] in H.

Lemma World_eq (w1 w2 : World) :
  heap w1 = heap w2 → globals w1 = globals w2 →
  modules w1 = modules w2 → servers w1 = servers w2 → w1 = w2.
Proof. destruct w1, w2. cbn. by intros -> -> -> ->. Qed.

(** Look-ups at the constant names of the module namespace. *)
Ltac glookup :=
  wsimpl;
  repeat first [ rewrite lookup_insert_eq
               | rewrite lookup_singleton_eq
               | rewrite lookup_insert_ne by done ];
  reflexivity.

Lemma main_module_run (name : string) (w0 : World) :
  main_module name w0 = Ok () (module_world name w0).
Proof.
  unfold main_module.
  do 3 mstep reflexivity.
  mstep (by apply FastAPI_Ok).
  do 2 mstep reflexivity.
  mstep (apply load_global_Ok; glookup).
  mstep (apply load_global_Ok; glookup).
  mstep (apply app_get_Ok with (rm := Some HealthResponse);
         wsimpl; apply lookup_insert_eq).
  mstep reflexivity.
  mstep (apply load_global_Ok; glookup).
  mstep (apply app_get_Ok with (rm := None); wsimpl; apply lookup_insert_eq).
  mstep reflexivity.
  mstep (apply load_global_Ok; glookup).
  unfold module_world, module_globals, module_defs.
  destruct (decide (VStr name = VStr "__main__")) as [E|E];
    destruct (decide (name = "__main__")) as [E'|E']; try congruence.
  - mstep reflexivity.
    mstep (apply load_global_Ok; glookup).
    unfold uvicorn_run. f_equal. apply World_eq; wsimpl.
    + by rewrite !insert_insert_eq.
    + reflexivity.
    + reflexivity.
    + reflexivity.
  - unfold mret, M_ret. f_equal. apply World_eq; wsimpl.
    + by rewrite !insert_insert_eq.
    + reflexivity.
    + by rewrite union_empty_l_L.
    + reflexivity.
Qed.

(** ** The handlers *)

Lemma validate_health_kwargs :
  validate (cls_fields HealthResponse)
    [("status", VStr "healthy"); ("version", VStr "1.0.0")]
  = inr health_fields.
Proof. reflexivity. Qed.

Lemma health_check_run (w : World) :
  globals w !! "HealthResponse" = Some (VClass HealthResponse) →
  ∃ l, health_check w
       = Ok (VRef l) (set_heap <[l := OModel HealthResponse health_fields]> w)
       ∧ heap w !! l = None.
Proof.
  intros H.
  destruct (alloc_Ok (OModel HealthResponse health_fields) w) as (l & Ha & Hl).
  exists l. split; [|done].
  unfold health_check. mstep (by apply load_global_Ok).
  unfold construct. rewrite validate_health_kwargs.
  mstep (exact Ha). reflexivity.
Qed.

Lemma get_users_run (w : World) :
  ∃ l1 l2 l3,
    get_users w
    = Ok (VRef l3)
        (set_heap <[l3 := OList [VRef l1; VRef l2]]>
           (set_heap <[l2 := user_jane]> (set_heap <[l1 := user_john]> w)))
    ∧ heap w !! l1 = None ∧ heap w !! l2 = None ∧ heap w !! l3 = None
    ∧ l1 ≠ l2 ∧ l1 ≠ l3 ∧ l2 ≠ l3.
Proof.
  destruct (alloc_Ok user_john w) as (l1 & H1 & F1).
  destruct (alloc_Ok user_jane (set_heap <[l1 := user_john]> w))
    as (l2 & H2 & F2).
  destruct (alloc_Ok (OList [VRef l1; VRef l2])
              (set_heap <[l2 := user_jane]> (set_heap <[l1 := user_john]> w)))
    as (l3 & H3 & F3).
  wsimpl in F2. wsimpl in F3.
  apply lookup_insert_None in F2 as [F2 N12].
  apply lookup_insert_None in F3 as [F3 N23].
  apply lookup_insert_None in F3 as [F3 N13].
  exists l1, l2, l3. repeat split; try done.
  unfold get_users.
  mstep (exact H1). mstep (exact H2). mstep (exact H3). reflexivity.
Qed.

(** ** Serialisation *)

Lemma mapM_Forall2 {A B} (f : A → M B) (xs : list A) (ys : list B) (w : World) :
  Forall2 (λ x y, f x w = Ok y w) xs ys → mapM_ f xs w = Ok ys w.
Proof.
  induction 1 as [|x y xs ys Hx _ IH]; cbn [mapM_]; [reflexivity|].
  mstep (exact Hx). mstep (exact IH). reflexivity.
Qed.

Lemma jsonable_encoder_list (n : nat) (w : World) (l : loc) (xs : list val) :
  heap w !! l = Some (OList xs) →
  jsonable_encoder (S n) (VRef l) w
  = (js ← mapM_ (jsonable_encoder n) xs; mret (JArr js)) w.
Proof. intros H. cbn [jsonable_encoder]. by rewrite H. Qed.

Lemma jsonable_encoder_user (n : nat) (w : World) (l : loc) (i : Z) (s : string) :
  heap w !! l = Some (ODict [("id", VInt i); ("name", VStr s)]) →
  jsonable_encoder (S (S n)) (VRef l) w
  = Ok (JObj [("id", JInt i); ("name", JStr s)]) w.
Proof. intros H. cbn [jsonable_encoder]. rewrite H. reflexivity. Qed.

Lemma jsonable_encoder_users (n : nat) (w : World) (l1 l2 l3 : loc) :
  heap w !! l1 = Some user_john → heap w !! l2 = Some user_jane →
  heap w !! l3 = Some (OList [VRef l1; VRef l2]) →
  jsonable_encoder (S (S (S n))) (VRef l3) w = Ok users_body w.
Proof.
  intros H1 H2 H3. rewrite (jsonable_encoder_list _ _ _ _ H3).
  mstep (apply mapM_Forall2
           with (ys := [JObj [("id", JInt 1); ("name", JStr "John")];
                        JObj [("id", JInt 2); ("name", JStr "Jane")]]);
         repeat constructor; by apply jsonable_encoder_user).
  reflexivity.
Qed.

Lemma jsonable_encoder_health (n : nat) (w : World) (l : loc) :
  heap w !! l = Some (OModel HealthResponse health_fields) →
  jsonable_encoder (S (S n)) (VRef l) w = Ok health_body w.
Proof. intros H. cbn [jsonable_encoder]. rewrite H. reflexivity. Qed.

Lemma serialize_health (w : World) (l : loc) :
  heap w !! l = Some (OModel HealthResponse health_fields) →
  serialize_response (Some HealthResponse) (VRef l) w = Ok health_body w.
Proof. intros H. unfold serialize_response. rewrite H. reflexivity. Qed.

Lemma serialize_users (w : World) (l1 l2 l3 : loc) :
  heap w !! l1 = Some user_john → heap w !! l2 = Some user_jane →
  heap w !! l3 = Some (OList [VRef l1; VRef l2]) →
  serialize_response None (VRef l3) w = Ok users_body w.
Proof.
  intros H1 H2 H3. unfold serialize_response.
  exact (jsonable_encoder_users 997 w l1 l2 l3 H1 H2 H3).
Qed.

(** ** Routing *)

Lemma regex_match_spec (p s : string) :
  regex_match p s = true ↔ s = p ∨ s = p ++ LF.
Proof.
  unfold regex_match. rewrite orb_true_iff, !bool_decide_eq_true. done.
Qed.

Lemma matches_spec (req : Request) (e : entry) :
  matches req e = true
  ↔ at_path (entry_path e) req ∧ req_method req ∈ entry_methods e.
Proof.
  unfold matches, at_path.
  rewrite andb_true_iff, regex_match_spec, bool_decide_eq_true. done.
Qed.

(** Requests with a given method and path, whatever else they carry. *)
Ltac route_by_computation req :=
  destruct req as [m p q h b]; cbn [req_method req_path] in *; subst;
  vm_compute; eauto.

Lemma asks_health_route (req : Request) :
  req_method req = "GET" → at_path "/health" req →
  route_for req = Some (Api health_route).
Proof. intros Hm [Hp|Hp]; route_by_computation req. Qed.

Lemma asks_users_route (req : Request) :
  req_method req = "GET" → at_path "/api/users" req →
  route_for req = Some (Api users_route).
Proof. intros Hm [Hp|Hp]; route_by_computation req. Qed.

Lemma asks_docs_route (req : Request) :
  asks_docs req → ∃ p pg, route_for req = Some (Docs p pg).
Proof.
  intros [[Hm|Hm] [[Hp|Hp]|[[Hp|Hp]|[[Hp|Hp]|[Hp|Hp]]]]];
    route_by_computation req.
Qed.

Lemma route_docs_asks (req : Request) (p : string) (pg : docs_page) :
  route_for req = Some (Docs p pg) → asks_docs req.
Proof.
  intros H. apply find_some in H as [Hin Hm].
  apply matches_spec in Hm as [Hp Hm]. cbn [entry_path entry_methods] in *.
  unfold app_routes, docs_routes in Hin. cbn [app In] in Hin.
  rewrite !elem_of_cons, elem_of_nil in Hm.
  split; [tauto|].
  destruct Hin as [E|[E|[E|[E|[E|[E|[]]]]]]]; try discriminate;
    injection E as <- <-; tauto.
Qed.

Lemma route_api_asks (req : Request) (r : Route) :
  route_for req = Some (Api r) →
  req_method req = "GET"
  ∧ ((r = health_route ∧ at_path "/health" req)
     ∨ (r = users_route ∧ at_path "/api/users" req)).
Proof.
  intros H. apply find_some in H as [Hin Hm].
  apply matches_spec in Hm as [Hp Hm]. cbn [entry_path entry_methods] in *.
  unfold app_routes, docs_routes in Hin. cbn [app In] in Hin.
  destruct Hin as [E|[E|[E|[E|[E|[E|[]]]]]]]; try discriminate;
    injection E as <-; apply list_elem_of_singleton in Hm; auto.
Qed.

Lemma route_for_None (req : Request) :
  route_for req = None ↔ ¬ asks_docs req ∧ ¬ asks_handler req.
Proof.
  split.
  - intros H. split.
    + intros (p & pg & E)%asks_docs_route. congruence.
    + intros [Hm [Hp|Hp]].
      * rewrite (asks_health_route req Hm Hp) in H. discriminate.
      * rewrite (asks_users_route req Hm Hp) in H. discriminate.
  - intros [Hd Hh]. destruct (route_for req) as [[p pg|r]|] eqn:E; [| |done].
    + destruct Hd. by eapply route_docs_asks.
    + destruct Hh. apply route_api_asks in E as [Hm [[_ Hp]|[_ Hp]]];
        (split; [done | tauto]).
Qed.

(** ** Worlds that differ by handler-made objects *)

Lemma extends_refl (w : World) : extends w w.
Proof. split; try done. intros l o H1 H2. congruence. Qed.

Lemma extends_trans (w1 w2 w3 : World) :
  extends w1 w2 → extends w2 w3 → extends w1 w3.
Proof.
  intros [G1 M1 S1 H1 N1] [G2 M2 S2 H2 N2]. split; try congruence.
  - by etrans.
  - intros l o Hl Ho. destruct (heap w2 !! l) as [o'|] eqn:E.
    + pose proof (lookup_weaken _ _ _ _ E H2) as E'.
      assert (o = o') as -> by congruence. eauto.
    + eauto.
Qed.

Lemma extends_alloc (w : World) (l : loc) (o : obj) :
  heap w !! l = None → produced o → extends w (set_heap <[l := o]> w).
Proof.
  intros Hl Ho. split; wsimpl; try done.
  - by apply insert_subseteq.
  - intros l' o' Hl' Ho'. destruct (decide (l = l')) as [->|Hne].
    + rewrite lookup_insert_eq in Ho'. congruence.
    + rewrite lookup_insert_ne in Ho' by done. congruence.
Qed.

Lemma loaded_extends (a : loc) (w w' : World) :
  loaded a w → extends w w' → loaded a w'.
Proof.
  intros [A C R] [G _ _ H _]. split.
  - by rewrite G.
  - by rewrite G.
  - exact (lookup_weaken _ _ _ _ R H).
Qed.

Lemma health_check_extends (w : World) :
  globals w !! "HealthResponse" = Some (VClass HealthResponse) →
  ∃ l w', health_check w = Ok (VRef l) w' ∧ extends w w'
          ∧ heap w !! l = None
          ∧ heap w' !! l = Some (OModel HealthResponse health_fields).
Proof.
  intros H. destruct (health_check_run w H) as (l & Hr & Hl).
  exists l, (set_heap <[l := OModel HealthResponse health_fields]> w).
  split_and!; try done.
  - apply extends_alloc; [done | constructor].
  - wsimpl. apply lookup_insert_eq.
Qed.

Lemma get_users_extends (w : World) :
  ∃ l1 l2 l3 w', get_users w = Ok (VRef l3) w' ∧ extends w w'
    ∧ heap w !! l3 = None
    ∧ heap w' !! l1 = Some user_john ∧ heap w' !! l2 = Some user_jane
    ∧ heap w' !! l3 = Some (OList [VRef l1; VRef l2]).
Proof.
  destruct (get_users_run w) as (l1 & l2 & l3 & Hr & F1 & F2 & F3 & N12 & N13 & N23).
  exists l1, l2, l3. eexists. split; [exact Hr|]. split_and!.
  - apply (extends_trans _ (set_heap <[l1 := user_john]> w));
      [apply extends_alloc; [done | constructor] |].
    apply (extends_trans _ (set_heap <[l2 := user_jane]>
                              (set_heap <[l1 := user_john]> w)));
      (apply extends_alloc; [| constructor]); wsimpl.
    + by rewrite lookup_insert_ne.
    + by rewrite !lookup_insert_ne.
  - done.
  - wsimpl. rewrite !lookup_insert_ne by done. apply lookup_insert_eq.
  - wsimpl. rewrite lookup_insert_ne by done. apply lookup_insert_eq.
  - wsimpl. apply lookup_insert_eq.
Qed.

(** ** Serving in a loaded world *)

Lemma serve_spec (a : loc) (w : World) (req : Request) :
  loaded a w →
  ∃ w', serve req w = Ok (expected_response req) w' ∧ extends w w'.
Proof.
  intros [A C R]. unfold serve. mstep (by apply load_global_Ok).
  unfold handle, expected_response. rewrite R.
  change (List.find (matches req) app_routes) with (route_for req).
  destruct (route_for req) as [[p pg|r]|] eqn:E.
  - exists w. split; [reflexivity | apply extends_refl].
  - apply route_api_asks in E as [_ [[-> _]|[-> _]]].
    + destruct (health_check_extends w C) as (l & w' & Hr & He & _ & Hl).
      exists w'. split; [|done].
      cbn [endpoint response_model status_code health_route call].
      mstep (exact Hr). mstep (by apply serialize_health). reflexivity.
    + destruct (get_users_extends w)
        as (l1 & l2 & l3 & w' & Hr & He & _ & H1 & H2 & H3).
      exists w'. split; [|done].
      cbn [endpoint response_model status_code users_route call].
      mstep (exact Hr). mstep (by eapply serialize_users). reflexivity.
  - exists w. split; [reflexivity | apply extends_refl].
Qed.

Lemma module_world_loaded (name : string) (w0 : World) :
  loaded (fresh (dom (heap w0))) (module_world name w0).
Proof.
  unfold module_world, module_globals, module_defs, app_object.
  split; wsimpl.
  - case_decide; glookup.
  - case_decide; glookup.
  - apply lookup_insert_eq.
Qed.

(** Every reachable world is the loaded module's world plus objects that
    handlers made. *)
Lemma reachable_inv (name : string) (w0 w : World) :
  reachable name w0 w →
  loaded (fresh (dom (heap w0))) w ∧ extends (module_world name w0) w.
Proof.
  induction 1 as [w Hrun | w req _ [IHl IHe]].
  - rewrite main_module_run in Hrun. injection Hrun as <-.
    split; [apply module_world_loaded | apply extends_refl].
  - destruct (serve_spec _ w req IHl) as (w' & Hs & He). rewrite Hs. wsimpl.
    split; [by eapply loaded_extends | by eapply extends_trans].
Qed.

Lemma expected_health (req : Request) :
  req_method req = "GET" → req_path req = "/health" →
  expected_response req
  = Some {| resp_status := 200; resp_body := health_body |}.
Proof.
  intros Hm Hp. unfold expected_response.
  by rewrite (asks_health_route req Hm (or_introl Hp)).
Qed.

Lemma expected_users (req : Request) :
  req_method req = "GET" → req_path req = "/api/users" →
  expected_response req
  = Some {| resp_status := 200; resp_body := users_body |}.
Proof.
  intros Hm Hp. unfold expected_response.
  by rewrite (asks_users_route req Hm (or_introl Hp)).
Qed.

Lemma expected_None (req : Request) :
  expected_response req = None ↔ route_for req = None.
Proof. unfold expected_response. by destruct (route_for req) as [[]|]. Qed.

(** A handler called in a loaded world: a new object, nothing else
    touched, and the JSON reading of the result is the constant body. *)
Lemma call_spec (a : loc) (w : World) (f : funcname) :
  loaded a w →
  ∃ l w', call f w = Ok (VRef l) w' ∧ extends w w' ∧ heap w !! l = None
    ∧ is_Some (heap w' !! l)
    ∧ jsonable_encoder recursion_limit (VRef l) w' = Ok (body_of f) w'
    ∧ (f = Fhealth_check →
       heap w' !! l = Some (OModel HealthResponse health_fields)).
Proof.
  intros [A C R]. destruct f; cbn [call body_of].
  - destruct (health_check_extends w C) as (l & w' & Hr & He & Hf & Hl).
    exists l, w'. split_and!; try done.
    exact (jsonable_encoder_health 998 w' l Hl).
  - destruct (get_users_extends w)
      as (l1 & l2 & l3 & w' & Hr & He & Hf & H1 & H2 & H3).
    exists l3, w'. split_and!; try done.
    exact (jsonable_encoder_users 997 w' l1 l2 l3 H1 H2 H3).
Qed.

(** ** What a returned value refers to *)

Lemma refers_VRef (h : gmap loc obj) (v : val) (l' : loc) :
  refers h v l' → ∃ l, v = VRef l.
Proof. destruct 1; eauto. Qed.

(** An object that holds no reference is all that a reference to it
    refers to. *)
Lemma refers_leaf (h : gmap loc obj) (l l' : loc) (o : obj) :
  h !! l = Some o → (∀ v l2, v ∈ held o → v ≠ VRef l2) →
  refers h (VRef l) l' → l' = l.
Proof.
  intros Ho Hleaf Hr. inversion Hr as [|? o' v ? Ho' Hv Hr']; subst; [done|].
  assert (o' = o) as -> by congruence.
  destruct (refers_VRef _ _ _ Hr') as [l2 ->]. by destruct (Hleaf _ l2 Hv).
Qed.

(** Everything the value returned by a handler refers to is new: it did not
    exist before the call, and it exists after. *)
Lemma call_refers (a : loc) (w w' : World) (f : funcname) (v : val) :
  loaded a w → call f w = Ok v w' →
  ∀ l, refers (heap w') v l → heap w !! l = None ∧ is_Some (heap w' !! l).
Proof.
  intros [A C R] Hc l Hl. destruct f; cbn [call] in Hc.
  - destruct (health_check_run w C) as (l1 & Hr & F1).
    rewrite Hr in Hc. injection Hc as <- <-. wsimpl in Hl. wsimpl.
    assert (l = l1) as ->.
    { eapply refers_leaf; [apply lookup_insert_eq | | exact Hl].
      intros v l2 Hv. cbn in Hv.
      rewrite !elem_of_cons, elem_of_nil in Hv.
      destruct Hv as [-> | [-> | []]]; discriminate. }
    split; [done|]. rewrite lookup_insert_eq. eauto.
  - destruct (get_users_run w)
      as (l1 & l2 & l3 & Hr & F1 & F2 & F3 & N12 & N13 & N23).
    rewrite Hr in Hc. injection Hc as <- <-. wsimpl in Hl. wsimpl.
    set (h := <[l3 := OList [VRef l1; VRef l2]]>
                (<[l2 := user_jane]> (<[l1 := user_john]> (heap w)))) in *.
    assert (h !! l1 = Some user_john) as H1
      by (unfold h; rewrite !lookup_insert_ne by done; apply lookup_insert_eq).
    assert (h !! l2 = Some user_jane) as H2
      by (unfold h; rewrite lookup_insert_ne by done; apply lookup_insert_eq).
    assert (h !! l3 = Some (OList [VRef l1; VRef l2])) as H3
      by (unfold h; apply lookup_insert_eq).
    assert (∀ o, o = user_john ∨ o = user_jane →
                 ∀ v l2, v ∈ held o → v ≠ VRef l2) as Hleaf.
    { intros o [-> | ->] v l' Hv; cbn in Hv;
        rewrite !elem_of_cons, elem_of_nil in Hv;
        destruct Hv as [-> | [-> | []]]; discriminate. }
    assert (l = l1 ∨ l = l2 ∨ l = l3) as Hcases.
    { inversion Hl as [|? o v ? Ho Hv Hr']; subst; [tauto|].
      assert (o = OList [VRef l1; VRef l2]) as -> by congruence.
      cbn [held] in Hv. rewrite !elem_of_cons, elem_of_nil in Hv.
      destruct Hv as [-> | [-> | []]].
      - left. eapply refers_leaf; [exact H1 | eauto | exact Hr'].
      - right; left. eapply refers_leaf; [exact H2 | eauto | exact Hr']. }
    destruct Hcases as [-> | [-> | ->]]; split; eauto.
Qed.

(** Conversely, every object that is new after the call of a handler is one
    the returned value refers to. *)
Lemma call_new_referred (w w' : World) (f : funcname) (v : val) :
  globals w !! "HealthResponse" = Some (VClass HealthResponse) →
  call f w = Ok v w' →
  ∀ l, heap w !! l = None → is_Some (heap w' !! l) → refers (heap w') v l.
Proof.
  intros C Hc l Hn [o Ho]. destruct f; cbn [call] in Hc.
  - destruct (health_check_run w C) as (l1 & Hr & F1).
    rewrite Hr in Hc. injection Hc as <- <-. wsimpl in Ho. wsimpl.
    destruct (decide (l = l1)) as [->|Hne]; [constructor|].
    rewrite lookup_insert_ne in Ho by done. congruence.
  - destruct (get_users_run w)
      as (l1 & l2 & l3 & Hr & F1 & F2 & F3 & N12 & N13 & N23).
    rewrite Hr in Hc. injection Hc as <- <-. wsimpl in Ho. wsimpl.
    destruct (decide (l = l3)) as [->|Hne3]; [constructor|].
    assert (l = l1 ∨ l = l2) as Hcases.
    { destruct (decide (l = l1)) as [->|Hne1]; [by left|].
      destruct (decide (l = l2)) as [->|Hne2]; [by right|].
      rewrite !lookup_insert_ne in Ho by done. congruence. }
    eapply refers_held; [apply lookup_insert_eq | | constructor].
    cbn [held]. rewrite !elem_of_cons.
    destruct Hcases as [-> | ->]; auto.
Qed.

(** * Properties of the service *)

(** C1: in every world the service can be in, and for every request
    [GET /health] whatever else the request carries, the handler
    [health_check] returns a [HealthResponse] whose [status] is "healthy" and
    whose [version] is "1.0.0", and the service answers 200 with the body
    [{"status": "healthy", "version": "1.0.0"}]. *)
Theorem health_endpoint_constant (name : string) (w0 w : World) (req : Request) :
  reachable name w0 w →
  req_method req = "GET" → req_path req = "/health" →
  (∃ l w', health_check w = Ok (VRef l) w'
     ∧ heap w' !! l
       = Some (OModel HealthResponse
                 [("status", VStr "healthy"); ("version", VStr "1.0.0")]))
  ∧ (∃ w', serve req w
           = Ok (Some {| resp_status := 200;
                         resp_body := JObj [("status", JStr "healthy");
                                            ("version", JStr "1.0.0")] |}) w').
Proof.
  intros Hr Hm Hp. destruct (reachable_inv _ _ _ Hr) as [Hl _]. split.
  - destruct (health_check_extends w (ld_cls _ _ Hl)) as (l & w' & H & _ & _ & Ho).
    by exists l, w'.
  - destruct (serve_spec _ w req Hl) as (w' & Hs & _).
    rewrite (expected_health req Hm Hp) in Hs. by exists w'.
Qed.

(** C2: in every world the service can be in, and for every request
    [GET /api/users], the handler [get_users] returns a new list of exactly
    two records, with ids 1 and 2 in that order, and the service answers 200
    with the body [[{"id": 1, "name": "John"}, {"id": 2, "name": "Jane"}]]. *)
Theorem users_endpoint_constant (name : string) (w0 w : World) (req : Request) :
  reachable name w0 w →
  req_method req = "GET" → req_path req = "/api/users" →
  (∃ l1 l2 l3 w', get_users w = Ok (VRef l3) w'
     ∧ heap w' !! l3 = Some (OList [VRef l1; VRef l2])
     ∧ heap w' !! l1 = Some (ODict [("id", VInt 1); ("name", VStr "John")])
     ∧ heap w' !! l2 = Some (ODict [("id", VInt 2); ("name", VStr "Jane")]))
  ∧ (∃ w', serve req w
           = Ok (Some {| resp_status := 200;
                         resp_body :=
                           JArr [JObj [("id", JInt 1); ("name", JStr "John")];
                                 JObj [("id", JInt 2); ("name", JStr "Jane")]]
                      |}) w').
Proof.
  intros Hr Hm Hp. destruct (reachable_inv _ _ _ Hr) as [Hl _]. split.
  - destruct (get_users_extends w)
      as (l1 & l2 & l3 & w' & H & _ & _ & H1 & H2 & H3).
    by exists l1, l2, l3, w'.
  - destruct (serve_spec _ w req Hl) as (w' & Hs & _).
    rewrite (expected_users req Hm Hp) in Hs. by exists w'.
Qed.

(** C3, as the claim states it, fails: the route table of the application
    the module builds is not the two routes alone. Imported as [main] into an
    empty world, the application bound to [app] holds a table that is not
    [GET /health], [GET /api/users], and [GET /docs] is answered, with the
    framework's documentation page. *)
Lemma table_not_only_two_routes :
  reachable "main" initial w_imported
  ∧ globals w_imported !! "app" = Some (VRef 1%positive)
  ∧ (∀ t v, heap w_imported !! 1%positive
            ≠ Some (OApp t v [Api health_route; Api users_route]))
  ∧ serve (GET "/docs") w_imported
    = Ok (Some {| resp_status := 200; resp_body := Page swagger_ui_html |})
        w_imported.
Proof.
  split_and!.
  - apply reach_load. vm_compute. reflexivity.
  - vm_compute. reflexivity.
  - intros t v H. vm_compute in H. discriminate.
  - vm_compute. reflexivity.
Qed.

(** C3, amended: in every world the service can be in, the route table of
    the application bound to [app] is the four pages the framework's
    constructor registers ([/openapi.json], [/docs], [/docs/oauth2-redirect]
    and [/redoc], answering GET and HEAD) followed by exactly the two routes
    of the program, [GET /health] and [GET /api/users], and nothing else. A
    request is answered by [health_check] exactly when it is a GET whose path
    is [/health], alone or followed by one line feed; by [get_users] exactly
    when it is a GET whose path is [/api/users], alone or followed by one
    line feed; by a page of the framework exactly when it is a GET or a HEAD
    for one of the four documentation paths; every other request is left
    unrouted. *)
Theorem two_routes_after_framework_pages (name : string) (w0 w : World) :
  reachable name w0 w →
  ∃ a, globals w !! "app" = Some (VRef a)
    ∧ heap w !! a
      = Some (OApp "API Service" "1.0.0"
                ([ Docs "/openapi.json" openapi;
                   Docs "/docs" swagger_ui_html;
                   Docs "/docs/oauth2-redirect" swagger_ui_redirect;
                   Docs "/redoc" redoc_html ]
                 ++ [ Api {| method := "GET"; path := "/health";
                             endpoint := Fhealth_check;
                             response_model := Some HealthResponse;
                             status_code := 200 |};
                      Api {| method := "GET"; path := "/api/users";
                             endpoint := Fget_users;
                             response_model := None;
                             status_code := 200 |} ])%list)
    ∧ ∀ req,
        ((∃ w', serve req w
                = Ok (Some {| resp_status := 200; resp_body := health_body |}) w')
         ↔ req_method req = "GET" ∧ at_path "/health" req)
        ∧ ((∃ w', serve req w
                  = Ok (Some {| resp_status := 200; resp_body := users_body |}) w')
           ↔ req_method req = "GET" ∧ at_path "/api/users" req)
        ∧ ((∃ pg w', serve req w
                     = Ok (Some {| resp_status := 200; resp_body := Page pg |}) w')
           ↔ (req_method req = "GET" ∨ req_method req = "HEAD")
             ∧ (at_path "/openapi.json" req ∨ at_path "/docs" req
                ∨ at_path "/docs/oauth2-redirect" req ∨ at_path "/redoc" req))
        ∧ ((∃ w', serve req w = Ok None w')
           ↔ ¬ asks_docs req ∧ ¬ asks_handler req).
Proof.
  intros Hr. destruct (reachable_inv _ _ _ Hr) as [Hl _].
  exists (fresh (dom (heap w0))). split_and!.
  - exact (ld_app _ _ Hl).
  - exact (ld_routes _ _ Hl).
  - intros req. destruct (serve_spec _ w req Hl) as (w' & Hs & _).
    rewrite Hs. unfold expected_response. split_and!.
    + split.
      * intros (w'' & E).
        destruct (route_for req) as [[p pg|r]|] eqn:Er; try discriminate.
        apply route_api_asks in Er as [Hm [[-> Hp]|[-> Hp]]];
          [done | discriminate].
      * intros [Hm Hp]. rewrite (asks_health_route req Hm Hp). eauto.
    + split.
      * intros (w'' & E).
        destruct (route_for req) as [[p pg|r]|] eqn:Er; try discriminate.
        apply route_api_asks in Er as [Hm [[-> Hp]|[-> Hp]]];
          [discriminate | done].
      * intros [Hm Hp]. rewrite (asks_users_route req Hm Hp). eauto.
    + split.
      * intros (pg' & w'' & E).
        destruct (route_for req) as [[p pg|r]|] eqn:Er; try discriminate.
        by eapply route_docs_asks.
      * intros (p & pg & ->)%asks_docs_route. eauto.
    + rewrite <- route_for_None. split.
      * intros (w'' & E). by destruct (route_for req) as [[p pg|r]|].
      * intros ->. eauto.
Qed.

(** C4: run as the main program, from any world, the module starts exactly
    one server, for its [app], bound to host "0.0.0.0" and port 8000. *)
Theorem main_binds_all_interfaces_8000 (w0 : World) :
  ∃ w a, main_module "__main__" w0 = Ok () w
    ∧ globals w !! "app" = Some (VRef a)
    ∧ servers w
      = (servers w0
         ++ [{| srv_app := VRef a; host := "0.0.0.0"; port := 8000 |}])%list.
Proof.
  exists (module_world "__main__" w0), (fresh (dom (heap w0))). split_and!.
  - apply main_module_run.
  - apply module_world_loaded.
  - unfold module_world. wsimpl. by rewrite decide_True.
Qed.

(** C5: in every world the service can be in, both handlers return
    normally, and so does serving any request: no exception comes from the
    module's own code. The handlers take no argument. *)
Theorem handlers_return_normally (name : string) (w0 w : World) :
  reachable name w0 w →
  (∀ f, ∃ v w', call f w = Ok v w')
  ∧ (∀ req, ∃ r w', serve req w = Ok r w').
Proof.
  intros Hr. destruct (reachable_inv _ _ _ Hr) as [Hl _]. split.
  - intros f. destruct (call_spec _ w f Hl) as (l & w' & H & _). eauto.
  - intros req. destruct (serve_spec _ w req Hl) as (w' & H & _). eauto.
Qed.

(** C6: every model instance that exists in a world of the service and did
    not exist before the module was run is a [HealthResponse] with both
    fields present, [status] "healthy" and [version] "1.0.0". *)
Theorem health_response_invariant (name : string) (w0 w : World)
    (l : loc) (c : ModelClass) (fs : list (string * val)) :
  reachable name w0 w →
  heap w0 !! l = None →
  heap w !! l = Some (OModel c fs) →
  c = HealthResponse
  ∧ fs = [("status", VStr "healthy"); ("version", VStr "1.0.0")]
  ∧ assoc "status" fs = Some (VStr "healthy")
  ∧ assoc "version" fs = Some (VStr "1.0.0").
Proof.
  intros Hr H0 Hw. destruct (reachable_inv _ _ _ Hr) as [Hl He].
  assert (produced (OModel c fs)) as Hp.
  { destruct (decide (l = fresh (dom (heap w0)))) as [->|Hne].
    - rewrite (ld_routes _ _ Hl) in Hw. discriminate.
    - apply (ext_new _ _ He l); [|done].
      unfold module_world. wsimpl. by rewrite lookup_insert_ne. }
  inversion Hp; subst. by split_and!.
Qed.

(** C7: a handler called in a world of the service leaves the module
    namespace, the imported modules, the servers and every existing object
    as they were; what it returns is a new object, and so is every object
    the returned value refers to, directly or through other objects (the
    list of [get_users] and both of its records): the response shares
    nothing with what existed before the call; the objects of the response
    are all that the call adds to the store; and the answer to any later
    request is the same as it would have been before the call. *)
Theorem handlers_frame (name : string) (w0 w : World)
    (f : funcname) (v : val) (w' : World) :
  reachable name w0 w →
  call f w = Ok v w' →
  globals w' = globals w ∧ modules w' = modules w ∧ servers w' = servers w
  ∧ (∀ l o, heap w !! l = Some o → heap w' !! l = Some o)
  ∧ (∃ l, v = VRef l ∧ heap w !! l = None ∧ is_Some (heap w' !! l))
  ∧ (∀ l, refers (heap w') v l → heap w !! l = None ∧ is_Some (heap w' !! l))
  ∧ (∀ l, heap w !! l = None → is_Some (heap w' !! l) → refers (heap w') v l)
  ∧ (∀ req, result_of (serve req w') = result_of (serve req w)).
Proof.
  intros Hr Hc. destruct (reachable_inv _ _ _ Hr) as [Hl _].
  pose proof (call_refers _ _ _ _ _ Hl Hc) as Hfresh.
  pose proof (call_new_referred _ _ _ _ (ld_cls _ _ Hl) Hc) as Hnew.
  destruct (call_spec _ w f Hl) as (l & w'' & H & He & Hf & Hs & _).
  rewrite H in Hc. injection Hc as <- <-.
  destruct He as [G Mo S Hh Hn]. split_and!; try done.
  - intros l' o Hl'. exact (lookup_weaken _ _ _ _ Hl' Hh).
  - by exists l.
  - intros req.
    assert (loaded (fresh (dom (heap w0))) w'') as Hl'.
    { eapply loaded_extends; [exact Hl | by split]. }
    destruct (serve_spec _ w req Hl) as (? & -> & _).
    by destruct (serve_spec _ w'' req Hl') as (? & -> & _).
Qed.


(** C9: in every world the service can be in, the [version] field of what
    [health_check] returns is the version recorded in the application
    object, "1.0.0". *)
Theorem health_version_matches_app (name : string) (w0 w : World) :
  reachable name w0 w →
  ∃ a title ver routes l w' c fs,
    globals w !! "app" = Some (VRef a)
    ∧ heap w !! a = Some (OApp title ver routes)
    ∧ health_check w = Ok (VRef l) w'
    ∧ heap w' !! l = Some (OModel c fs)
    ∧ assoc "version" fs = Some (VStr ver)
    ∧ ver = "1.0.0".
Proof.
  intros Hr. destruct (reachable_inv _ _ _ Hr) as [Hl _].
  destruct (health_check_extends w (ld_cls _ _ Hl)) as (l & w' & H & _ & _ & Ho).
  exists (fresh (dom (heap w0))), "API Service", "1.0.0",
    app_routes, l, w', HealthResponse, health_fields.
  split_and!; try done.
  - exact (ld_app _ _ Hl).
  - exact (ld_routes _ _ Hl).
Qed.

(** C10: run under any name other than "__main__", from any world, the
    module starts no server and does not import the server package; all it
    leaves in the store is one new object, bound to [app]: the application,
    whose table is the framework's own pages followed by the two routes the
    module registers. *)
Theorem import_starts_no_server (name : string) (w0 : World) :
  name ≠ "__main__" →
  ∃ w a, main_module name w0 = Ok () w
    ∧ servers w = servers w0
    ∧ modules w = {["pydantic"]} ∪ ({["fastapi"]} ∪ modules w0)
    ∧ heap w0 !! a = None
    ∧ heap w
      = <[a := OApp "API Service" "1.0.0"
                 (docs_routes ++ [Api health_route; Api users_route])%list]>
          (heap w0)
    ∧ globals w !! "app" = Some (VRef a).
Proof.
  intros Hn.
  exists (module_world name w0), (fresh (dom (heap w0))). split_and!.
  - apply main_module_run.
  - unfold module_world. wsimpl. by rewrite decide_False.
  - unfold module_world. wsimpl. rewrite decide_False by done.
    by rewrite union_empty_l_L.
  - apply not_elem_of_dom, is_fresh.
  - reflexivity.
  - apply module_world_loaded.
Qed.

(** ** The properties at concrete worlds *)

Lemma health_endpoint_constant_witness :
  reachable "main" initial w_imported
  ∧ (∃ w', serve (GET "/health") w_imported
           = Ok (Some {| resp_status := 200; resp_body := health_body |}) w').
Proof.
  assert (reachable "main" initial w_imported) as Hr
    by (apply reach_load; vm_compute; reflexivity).
  split; [exact Hr|].
  apply (health_endpoint_constant "main" initial w_imported (GET "/health") Hr);
    reflexivity.
Defined.

Lemma users_endpoint_constant_witness :
  reachable "main" initial w_imported
  ∧ (∃ w', serve (GET "/api/users") w_imported
           = Ok (Some {| resp_status := 200; resp_body := users_body |}) w').
Proof.
  assert (reachable "main" initial w_imported) as Hr
    by (apply reach_load; vm_compute; reflexivity).
  split; [exact Hr|].
  apply (users_endpoint_constant "main" initial w_imported (GET "/api/users") Hr);
    reflexivity.
Defined.

Lemma two_routes_after_framework_pages_witness :
  reachable "main" initial w_served
  ∧ ∃ a, globals w_served !! "app" = Some (VRef a)
      ∧ ∀ req, (∃ w', serve req w_served = Ok None w')
               ↔ ¬ asks_docs req ∧ ¬ asks_handler req.
Proof.
  assert (reachable "main" initial w_served) as Hr
    by (apply reach_serve, reach_load; vm_compute; reflexivity).
  split; [exact Hr|].
  destruct (two_routes_after_framework_pages "main" initial w_served Hr)
    as (a & Ha & _ & Hreq).
  exists a. split; [exact Ha | apply Hreq].
Defined.

Lemma handlers_return_normally_witness :
  reachable "main" initial w_served
  ∧ (∀ f, ∃ v w', call f w_served = Ok v w')
  ∧ (∀ req, ∃ r w', serve req w_served = Ok r w').
Proof.
  assert (reachable "main" initial w_served) as Hr
    by (apply reach_serve, reach_load; vm_compute; reflexivity).
  split; [exact Hr|].
  exact (handlers_return_normally "main" initial w_served Hr).
Defined.

Lemma health_response_invariant_witness :
  reachable "main" initial w_served
  ∧ heap initial !! 2%positive = None
  ∧ heap w_served !! 2%positive = Some (OModel HealthResponse health_fields)
  ∧ assoc "status" health_fields = Some (VStr "healthy")
  ∧ assoc "version" health_fields = Some (VStr "1.0.0").
Proof.
  assert (reachable "main" initial w_served) as Hr
    by (apply reach_serve, reach_load; vm_compute; reflexivity).
  assert (heap w_served !! 2%positive
          = Some (OModel HealthResponse health_fields)) as Hw
    by (vm_compute; reflexivity).
  split_and!; [exact Hr | reflexivity | exact Hw | |];
    apply (health_response_invariant "main" initial w_served 2%positive
             HealthResponse health_fields Hr eq_refl Hw).
Defined.

Lemma handlers_frame_witness :
  let w' := world_after (call Fget_users w_served) in
  reachable "main" initial w_served
  ∧ call Fget_users w_served = Ok (VRef 5%positive) w'
  ∧ globals w' = globals w_served
  ∧ modules w' = modules w_served
  ∧ servers w' = servers w_served
  ∧ (∀ l o, heap w_served !! l = Some o → heap w' !! l = Some o)
  ∧ (∃ l, VRef 5%positive = VRef l ∧ heap w_served !! l = None
          ∧ is_Some (heap w' !! l))
  ∧ (∀ l, refers (heap w') (VRef 5%positive) l →
          heap w_served !! l = None ∧ is_Some (heap w' !! l))
  ∧ (∀ l, heap w_served !! l = None → is_Some (heap w' !! l) →
          refers (heap w') (VRef 5%positive) l)
  ∧ (∀ req, result_of (serve req w') = result_of (serve req w_served)).
Proof.
  intros w'.
  assert (reachable "main" initial w_served) as Hr
    by (apply reach_serve, reach_load; vm_compute; reflexivity).
  assert (call Fget_users w_served = Ok (VRef 5%positive) w') as Hc
    by (vm_compute; reflexivity).
  split; [exact Hr|]. split; [exact Hc|].
  exact (handlers_frame "main" initial w_served Fget_users
           (VRef 5%positive) w' Hr Hc).
Defined.


Lemma health_version_matches_app_witness :
  reachable "main" initial w_imported
  ∧ ∃ a title ver routes l w' c fs,
      globals w_imported !! "app" = Some (VRef a)
      ∧ heap w_imported !! a = Some (OApp title ver routes)
      ∧ health_check w_imported = Ok (VRef l) w'
      ∧ heap w' !! l = Some (OModel c fs)
      ∧ assoc "version" fs = Some (VStr ver)
      ∧ ver = "1.0.0".
Proof.
  assert (reachable "main" initial w_imported) as Hr
    by (apply reach_load; vm_compute; reflexivity).
  split; [exact Hr|].
  exact (health_version_matches_app "main" initial w_imported Hr).
Defined.

Lemma import_starts_no_server_witness :
  "main" ≠ "__main__"
  ∧ ∃ w a, main_module "main" initial = Ok () w
      ∧ servers w = servers initial
      ∧ modules w = {["pydantic"]} ∪ ({["fastapi"]} ∪ modules initial)
      ∧ heap initial !! a = None
      ∧ heap w
        = <[a := OApp "API Service" "1.0.0"
                   (docs_routes ++ [Api health_route; Api users_route])%list]>
            (heap initial)
      ∧ globals w !! "app" = Some (VRef a).
Proof.
  assert ("main" ≠ "__main__") as Hn by discriminate.
  split; [exact Hn|].
  exact (import_starts_no_server "main" initial Hn).
Defined.

(** * Further properties of the module's code *)

(** ** [get_users] on its own *)

(** X1: in any world whatsoever, [get_users] returns a reference to a new
    list of two new dicts; the three objects are distinct, they are exactly
    what the store gains, and nothing else in the world changes. The function
    reads nothing from the module namespace. *)
Theorem get_users_any_world (w : World) :
  ∃ l1 l2 l3 w',
    get_users w = Ok (VRef l3) w'
    ∧ l1 ≠ l2 ∧ l1 ≠ l3 ∧ l2 ≠ l3
    ∧ (l1 ∉ dom (heap w)) ∧ (l2 ∉ dom (heap w)) ∧ (l3 ∉ dom (heap w))
    ∧ dom (heap w') = {[l1; l2; l3]} ∪ dom (heap w)
    ∧ heap w' !! l1 = Some (ODict [("id", VInt 1); ("name", VStr "John")])
    ∧ heap w' !! l2 = Some (ODict [("id", VInt 2); ("name", VStr "Jane")])
    ∧ heap w' !! l3 = Some (OList [VRef l1; VRef l2])
    ∧ (∀ l o, heap w !! l = Some o → heap w' !! l = Some o)
    ∧ globals w' = globals w ∧ modules w' = modules w
    ∧ servers w' = servers w.
Proof.
  destruct (get_users_run w)
    as (l1 & l2 & l3 & Hr & F1 & F2 & F3 & N12 & N13 & N23).
  exists l1, l2, l3. eexists. split; [exact Hr|]. wsimpl.
  split_and!; try done; try (by apply not_elem_of_dom).
  - rewrite !dom_insert_L. apply set_eq. intros x.
    rewrite !elem_of_union, !elem_of_singleton. tauto.
  - rewrite !lookup_insert_ne by done. apply lookup_insert_eq.
  - rewrite lookup_insert_ne by done. apply lookup_insert_eq.
  - apply lookup_insert_eq.
  - intros l o Hl. rewrite !lookup_insert_ne by congruence. exact Hl.
Qed.

(** ** [health_check] and the class it names *)

(** X2: all that [health_check] needs from its environment is the binding
    of [HealthResponse] to the class: in any world that has it, whatever
    else is or is not there, the call returns one new object with the two
    constant fields, the store gains exactly that object, and nothing else
    changes. *)
Theorem health_check_needs_only_its_class (w : World) :
  globals w !! "HealthResponse" = Some (VClass HealthResponse) →
  ∃ l w',
    health_check w = Ok (VRef l) w'
    ∧ (l ∉ dom (heap w))
    ∧ dom (heap w') = {[l]} ∪ dom (heap w)
    ∧ heap w' !! l
      = Some (OModel HealthResponse
                [("status", VStr "healthy"); ("version", VStr "1.0.0")])
    ∧ (∀ l' o, heap w !! l' = Some o → heap w' !! l' = Some o)
    ∧ globals w' = globals w ∧ modules w' = modules w
    ∧ servers w' = servers w.
Proof.
  intros H. destruct (health_check_run w H) as (l & Hr & Hl).
  exists l. eexists. split; [exact Hr|]. wsimpl.
  split_and!; try done.
  - by apply not_elem_of_dom.
  - by rewrite dom_insert_L.
  - apply lookup_insert_eq.
  - intros l' o Hl'. rewrite lookup_insert_ne by congruence. exact Hl'.
Qed.

Lemma health_check_needs_only_its_class_witness :
  globals w_class_only !! "HealthResponse" = Some (VClass HealthResponse)
  ∧ ∃ l w', health_check w_class_only = Ok (VRef l) w'
      ∧ dom (heap w') = {[l]} ∪ dom (heap w_class_only).
Proof.
  assert (globals w_class_only !! "HealthResponse"
          = Some (VClass HealthResponse)) as H by reflexivity.
  split; [exact H|].
  destruct (health_check_needs_only_its_class w_class_only H)
    as (l & w' & Hr & _ & Hd & _).
  by exists l, w'.
Defined.

(** X3: when the name [HealthResponse] is not bound to a class,
    [health_check] raises and leaves the world as it was: [NameError] exactly
    when the name is unbound, [TypeError] when it is bound to something that
    is not a class. *)
Theorem health_check_without_class (w : World) :
  (∀ c, globals w !! "HealthResponse" ≠ Some (VClass c)) →
  ∃ e, health_check w = Raise e w
    ∧ (e = NameError "HealthResponse" ∨ e = TypeError)
    ∧ (e = NameError "HealthResponse"
       ↔ globals w !! "HealthResponse" = None).
Proof.
  intros Hn. unfold health_check.
  destruct (globals w !! "HealthResponse") as [v|] eqn:E.
  - exists TypeError. split_and!; [| by right | split; discriminate].
    mstep (by apply load_global_Ok).
    destruct v; try reflexivity. by destruct (Hn c).
  - exists (NameError "HealthResponse"). split_and!; [| by left | done].
    apply bind_Raise. unfold load_global. by rewrite E.
Qed.

Lemma health_check_without_class_witness :
  (∀ c, globals initial !! "HealthResponse" ≠ Some (VClass c))
  ∧ health_check initial = Raise (NameError "HealthResponse") initial.
Proof.
  assert (∀ c, globals initial !! "HealthResponse" ≠ Some (VClass c)) as H
    by (intros c; discriminate).
  split; [exact H|].
  destruct (health_check_without_class initial H) as (e & -> & _ & He).
  f_equal. by apply He.
Defined.

(** ** The class [HealthResponse] *)

(** X4: both fields of [HealthResponse] are required: called without
    [status] or without [version], whatever else is passed, the class raises
    a validation error naming one of the two fields, and no object is
    made. *)
Theorem HealthResponse_requires_both_fields
    (kwargs : list (string * val)) (w : World) :
  assoc "status" kwargs = None ∨ assoc "version" kwargs = None →
  ∃ k, construct (VClass HealthResponse) kwargs w = Raise (ValidationError k) w
    ∧ (k = "status" ∨ k = "version").
Proof.
  intros H. unfold construct. cbn [validate cls_fields HealthResponse].
  destruct (assoc "status" kwargs) as [v1|] eqn:E1;
    [|exists "status"; by auto].
  destruct (has_type TStr v1); [|exists "status"; by auto].
  destruct (assoc "version" kwargs) as [v2|] eqn:E2;
    [|exists "version"; by auto].
  destruct H; discriminate.
Qed.

Lemma HealthResponse_requires_both_fields_witness :
  (assoc "status" [("version", VStr "1.0.0")] = None
   ∨ assoc "version" [("version", VStr "1.0.0")] = None)
  ∧ ∃ k, construct (VClass HealthResponse) [("version", VStr "1.0.0")] initial
         = Raise (ValidationError k) initial.
Proof.
  assert (assoc "status" [("version", VStr "1.0.0")] = None
          ∨ assoc "version" [("version", VStr "1.0.0")] = None) as H
    by (left; reflexivity).
  split; [exact H|].
  destruct (HealthResponse_requires_both_fields
              [("version", VStr "1.0.0")] initial H) as (k & Hk & _).
  by exists k.
Defined.

(** X5: a [HealthResponse] gives back what it was made from: called with
    strings [s] and [v] for [status] and [version], in any order and among
    any other keyword arguments, the class makes one new object whose fields
    are [status = s] and [version = v], in the order of the declaration, and
    sent through the response model that object reads
    [{"status": s, "version": v}]. *)
Theorem HealthResponse_round_trip
    (kwargs : list (string * val)) (s v : string) (w : World) :
  assoc "status" kwargs = Some (VStr s) →
  assoc "version" kwargs = Some (VStr v) →
  ∃ l w',
    construct (VClass HealthResponse) kwargs w = Ok (VRef l) w'
    ∧ heap w !! l = None
    ∧ heap w' !! l
      = Some (OModel HealthResponse [("status", VStr s); ("version", VStr v)])
    ∧ serialize_response (Some HealthResponse) (VRef l) w'
      = Ok (JObj [("status", JStr s); ("version", JStr v)]) w'.
Proof.
  intros Hs Hv.
  destruct (alloc_Ok
              (OModel HealthResponse [("status", VStr s); ("version", VStr v)]) w)
    as (l & Ha & Hl).
  exists l. eexists. split_and!.
  - unfold construct. cbn [validate cls_fields HealthResponse].
    rewrite Hs, Hv. cbn [has_type].
    mstep (exact Ha). reflexivity.
  - exact Hl.
  - wsimpl. apply lookup_insert_eq.
  - unfold serialize_response. wsimpl. rewrite lookup_insert_eq. reflexivity.
Qed.

Lemma HealthResponse_round_trip_witness :
  let kwargs := [("version", VStr "2"); ("extra", VInt 0); ("status", VStr "up")] in
  assoc "status" kwargs = Some (VStr "up")
  ∧ assoc "version" kwargs = Some (VStr "2")
  ∧ ∃ l w', construct (VClass HealthResponse) kwargs initial = Ok (VRef l) w'
      ∧ serialize_response (Some HealthResponse) (VRef l) w'
        = Ok (JObj [("status", JStr "up"); ("version", JStr "2")]) w'.
Proof.
  intros kwargs.
  assert (assoc "status" kwargs = Some (VStr "up")) as Hs by reflexivity.
  assert (assoc "version" kwargs = Some (VStr "2")) as Hv by reflexivity.
  split; [exact Hs|]. split; [exact Hv|].
  destruct (HealthResponse_round_trip kwargs "up" "2" initial Hs Hv)
    as (l & w' & Hc & _ & _ & Hj).
  by exists l, w'.
Defined.

(** ** The running service *)

Section running_service.
Context (name : string) (w0 w : World) (Hr : reachable name w0 w).

(** X6: the answers of the service depend on the store only through the
    application object: replace the store by any other that holds the same
    application object (earlier responses changed or gone, anything added)
    and every request is answered as before. Nothing a handler returned is
    shared with a later request. *)
Theorem answers_independent_of_store (a : loc) (h' : gmap loc obj) :
  globals w !! "app" = Some (VRef a) →
  h' !! a = heap w !! a →
  ∀ req,
    result_of (serve req (set_heap (λ _, h') w)) = inr (expected_response req)
    ∧ result_of (serve req w) = inr (expected_response req).
Proof using Hr.
  intros Ha Hh req. destruct (reachable_inv _ _ _ Hr) as [Hl _].
  assert (a = fresh (dom (heap w0))) as ->
    by (pose proof (ld_app _ _ Hl); congruence).
  assert (loaded (fresh (dom (heap w0))) (set_heap (λ _, h') w)) as Hl'.
  { destruct Hl as [A C R]. split; wsimpl; [done | done | by rewrite Hh]. }
  destruct (serve_spec _ _ req Hl) as (? & -> & _).
  by destruct (serve_spec _ _ req Hl') as (? & -> & _).
Qed.

(** X7: whatever has been served, the module namespace, the imported
    modules and the servers are those the module body left, and every object
    the module body left is still there: serving starts no server, imports
    nothing and rebinds no name. In particular the names the imports bound
    still name the two library classes, and the decorated names the two
    functions themselves. *)
Theorem serving_keeps_namespace :
  globals w = globals (world_after (main_module name w0))
  ∧ modules w = modules (world_after (main_module name w0))
  ∧ servers w = servers (world_after (main_module name w0))
  ∧ heap (world_after (main_module name w0)) ⊆ heap w
  ∧ globals w !! "__name__" = Some (VStr name)
  ∧ globals w !! "FastAPI" = Some (VClass CFastAPI)
  ∧ globals w !! "BaseModel" = Some (VClass BaseModel)
  ∧ globals w !! "health_check" = Some (VFun Fhealth_check)
  ∧ globals w !! "get_users" = Some (VFun Fget_users).
Proof using Hr.
  destruct (reachable_inv _ _ _ Hr) as [_ [G Mo S H _]].
  rewrite main_module_run. wsimpl. rewrite G.
  unfold module_world, module_globals, module_defs. wsimpl.
  split_and!; try done; case_decide; glookup.
Qed.

End running_service.

Lemma answers_independent_of_store_witness :
  reachable "main" initial w_served
  ∧ globals w_served !! "app" = Some (VRef 1%positive)
  ∧ delete 2%positive (heap w_served) !! 1%positive
    = heap w_served !! 1%positive
  ∧ ∀ req,
      result_of (serve req (set_heap (λ _, delete 2%positive (heap w_served))
                              w_served))
      = inr (expected_response req)
      ∧ result_of (serve req w_served) = inr (expected_response req).
Proof.
  assert (reachable "main" initial w_served) as Hr
    by (apply reach_serve, reach_load; vm_compute; reflexivity).
  assert (globals w_served !! "app" = Some (VRef 1%positive)) as Ha
    by (vm_compute; reflexivity).
  assert (delete 2%positive (heap w_served) !! 1%positive
          = heap w_served !! 1%positive) as Hh
    by (vm_compute; reflexivity).
  split; [exact Hr|]. split; [exact Ha|]. split; [exact Hh|].
  exact (answers_independent_of_store "main" initial w_served Hr
           1%positive (delete 2%positive (heap w_served)) Ha Hh).
Defined.

Lemma serving_keeps_namespace_witness :
  reachable "main" initial w_served
  ∧ globals w_served = globals (world_after (main_module "main" initial))
  ∧ servers w_served = servers (world_after (main_module "main" initial))
  ∧ globals w_served !! "BaseModel" = Some (VClass BaseModel).
Proof.
  assert (reachable "main" initial w_served) as Hr
    by (apply reach_serve, reach_load; vm_compute; reflexivity).
  split; [exact Hr|].
  destruct (serving_keeps_namespace "main" initial w_served Hr)
    as (Hg & _ & Hs & _ & _ & _ & Hb & _).
  by split_and!.
Defined.

(** X8: requests served one after the other are each answered as if served
    alone: whatever the requests and their order, the answers are, one by
    one, the answer of the first route of the application's table (the
    framework's four pages, then the program's two routes) that matches the
    request in path and method, none when no route does, and the world
    afterwards is again one the service can be in. *)
Theorem serve_sequence (name : string) (w0 w : World) (reqs : list Request) :
  reachable name w0 w →
  ∃ w', mapM_ serve reqs w = Ok (expected_response <$> reqs) w'
        ∧ reachable name w0 w'.
Proof.
  revert w. induction reqs as [|req reqs IH]; intros w Hr.
  - exists w. by split.
  - destruct (reachable_inv _ _ _ Hr) as [Hl _].
    destruct (serve_spec _ w req Hl) as (w1 & Hs & _).
    pose proof (reach_serve name w0 w req Hr) as Hr1.
    rewrite Hs in Hr1. wsimpl in Hr1.
    destruct (IH w1 Hr1) as (w' & Hm & Hr').
    exists w'. split; [|done].
    cbn [mapM_ fmap list_fmap]. mstep (exact Hs). mstep (exact Hm).
    reflexivity.
Qed.

Lemma serve_sequence_witness :
  reachable "main" initial w_imported
  ∧ ∃ w', mapM_ serve [GET "/api/users"; GET "/nowhere"; GET "/docs";
                       GET ("/health" ++ LF); GET "/health"]
            w_imported
          = Ok [Some {| resp_status := 200; resp_body := users_body |};
                None;
                Some {| resp_status := 200; resp_body := Page swagger_ui_html |};
                Some {| resp_status := 200; resp_body := health_body |};
                Some {| resp_status := 200; resp_body := health_body |}] w'.
Proof.
  assert (reachable "main" initial w_imported) as Hr
    by (apply reach_load; vm_compute; reflexivity).
  split; [exact Hr|].
  destruct (serve_sequence "main" initial w_imported
              [GET "/api/users"; GET "/nowhere"; GET "/docs";
               GET ("/health" ++ LF); GET "/health"] Hr)
    as (w' & Hm & _).
  exists w'. exact Hm.
Defined.

(** ** The module body *)

(** X9: the application the module builds does not depend on how the module
    is run: under any name the store is the same as when run as the main
    program, and so is the binding of each of the six names the module binds
    whatever it is run as. Run as the main program, the module also binds
    [uvicorn] to the server package, which it then has imported, and the
    servers afterwards are those there were before plus exactly one, for
    that application, on "0.0.0.0" and 8000; run under another name it leaves
    [uvicorn] unbound. *)
Theorem app_same_however_run (name : string) (w0 : World) :
  ∃ w wm a,
    main_module name w0 = Ok () w
    ∧ main_module "__main__" w0 = Ok () wm
    ∧ heap w = heap wm
    ∧ (∀ x, x ∈ ["FastAPI"; "BaseModel"; "app"; "HealthResponse";
                 "health_check"; "get_users"] →
            is_Some (globals w !! x) ∧ globals w !! x = globals wm !! x)
    ∧ globals wm !! "app" = Some (VRef a)
    ∧ globals wm !! "uvicorn" = Some (VModule "uvicorn")
    ∧ (name ≠ "__main__" → globals w !! "uvicorn" = None)
    ∧ "uvicorn" ∈ modules wm
    ∧ servers wm
      = (servers w0
         ++ [{| srv_app := VRef a; host := "0.0.0.0"; port := 8000 |}])%list.
Proof.
  exists (module_world name w0), (module_world "__main__" w0),
    (fresh (dom (heap w0))).
  split_and!; try apply main_module_run.
  - reflexivity.
  - intros x Hx. rewrite !elem_of_cons, elem_of_nil in Hx.
    unfold module_world, module_globals, module_defs. wsimpl.
    rewrite (decide_True (P := "__main__" = "__main__")) by done.
    destruct Hx as [-> | [-> | [-> | [-> | [-> | [-> | []]]]]]];
      case_decide; (split; [eexists|]; glookup).
  - exact (ld_app _ _ (module_world_loaded "__main__" w0)).
  - unfold module_world, module_globals. wsimpl.
    rewrite decide_True by done. apply lookup_insert_eq.
  - intros Hn. unfold module_world, module_globals, module_defs. wsimpl.
    rewrite decide_False by done.
    repeat (rewrite lookup_insert_ne by done). by rewrite lookup_singleton_ne.
  - unfold module_world. wsimpl. rewrite decide_True by done.
    apply elem_of_union_l, elem_of_singleton. reflexivity.
  - unfold module_world. wsimpl. by rewrite decide_True.
Qed.

Lemma app_same_however_run_witness :
  ∃ w wm, main_module "main" initial = Ok () w
    ∧ main_module "__main__" initial = Ok () wm
    ∧ heap w = heap wm
    ∧ globals w !! "uvicorn" = None
    ∧ globals wm !! "uvicorn" = Some (VModule "uvicorn")
    ∧ servers wm
      = [{| srv_app := VRef 1%positive; host := "0.0.0.0"; port := 8000 |}].
Proof.
  destruct (app_same_however_run "main" initial)
    as (w & wm & a & Hw & Hwm & Hh & _ & Ha & Hu & Hn & _ & Hs).
  exists w, wm. split_and!; try done.
  - apply Hn. discriminate.
  - rewrite Hs. cbn [servers initial app]. do 3 f_equal.
    assert (wm = world_after (main_module "__main__" initial)) as ->
      by (by rewrite Hwm).
    vm_compute in Ha. congruence.
Defined.

(** X10: running the module body again builds a second application and
    leaves the first alone: the two application objects are distinct, each
    carries the framework's four pages followed by exactly the two routes of
    the program (nothing is registered twice), and [app] names the newer
    one. *)
Theorem rerun_builds_second_app (n1 n2 : string) (w0 : World) :
  ∃ w1 w2 a1 a2,
    main_module n1 w0 = Ok () w1
    ∧ main_module n2 w1 = Ok () w2
    ∧ a1 ≠ a2
    ∧ heap w0 !! a1 = None ∧ heap w0 !! a2 = None
    ∧ globals w1 !! "app" = Some (VRef a1)
    ∧ globals w2 !! "app" = Some (VRef a2)
    ∧ heap w2 !! a1
      = Some (OApp "API Service" "1.0.0"
                (docs_routes ++ [Api health_route; Api users_route])%list)
    ∧ heap w2 !! a2
      = Some (OApp "API Service" "1.0.0"
                (docs_routes ++ [Api health_route; Api users_route])%list)
    ∧ dom (heap w2) = {[a1; a2]} ∪ dom (heap w0).
Proof.
  exists (module_world n1 w0), (module_world n2 (module_world n1 w0)),
    (fresh (dom (heap w0))), (fresh (dom (heap (module_world n1 w0)))).
  assert (heap (module_world n1 w0)
            !! fresh (dom (heap (module_world n1 w0))) = None) as F2
    by apply not_elem_of_dom, is_fresh.
  assert (heap w0 !! fresh (dom (heap w0)) = None) as F1
    by apply not_elem_of_dom, is_fresh.
  set (a1 := fresh (dom (heap w0))) in *.
  set (a2 := fresh (dom (heap (module_world n1 w0)))) in *.
  assert (heap (module_world n1 w0) = <[a1 := app_object]> (heap w0)) as E1
    by reflexivity.
  rewrite E1 in F2. apply lookup_insert_None in F2 as [F2 N].
  assert (heap (module_world n2 (module_world n1 w0))
          = <[a2 := app_object]> (<[a1 := app_object]> (heap w0))) as E2.
  { unfold module_world at 1. wsimpl. fold a2. by rewrite E1. }
  split; [apply main_module_run|]. split; [apply main_module_run|].
  split; [exact N|]. split; [exact F1|]. split; [exact F2|].
  split; [exact (ld_app _ _ (module_world_loaded n1 w0))|].
  split; [exact (ld_app _ _ (module_world_loaded n2 (module_world n1 w0)))|].
  split; [rewrite E2, lookup_insert_ne by done; apply lookup_insert_eq|].
  split; [rewrite E2; apply lookup_insert_eq|].
  rewrite E2, !dom_insert_L. apply set_eq. intros x.
  rewrite !elem_of_union, !elem_of_singleton. tauto.
Qed.
